(** * workingWithDataInLWC: the contact components and the error reducer

    A shallow embedding of the two Lightning web components of the
    repository (ContactCreator, ContactList) and of the error reducer
    [reduceErrors] that ContactList imports from [c/ldsUtils].

    - [JS]: the JavaScript values the components handle, property reads,
      truthiness and string conversion.
    - [Platform]: the toast notification and the component's event log.
    - [LdsUtils]: [reduceErrors].
    - [ContactCreator], [ContactList]: the two components, with the
      component instance threaded explicitly through every method. *)

From Stdlib Require Import List String ZArith Lia DecimalString.
Import ListNotations.
Local Open Scope string_scope.
Local Open Scope list_scope.
Set Warnings "-register-all".

(* ================================================================== *)
(** ** JavaScript values *)

Module JS.

(** The values an error payload, a data payload or an event detail can
    hold. An array is the list of its elements; an object is the list of
    its own properties in iteration order (a property read returns the
    first binding of the key). Numbers are the integers: nothing in the
    components computes with fractions. *)
Inductive value : Type :=
| VUndefined
| VNull
| VBool (b : bool)
| VNum (n : Z)
| VStr (s : string)
| VArr (items : list value)
| VObj (props : list (string * value)).

(** Induction over values that reaches the elements of an array and the
    property values of an object. *)
Section ValueInduction.
Variable P : value -> Prop.
Hypothesis Hundef : P VUndefined.
Hypothesis Hnull : P VNull.
Hypothesis Hbool : forall b, P (VBool b).
Hypothesis Hnum : forall n, P (VNum n).
Hypothesis Hstr : forall s, P (VStr s).
Hypothesis Harr : forall items, Forall P items -> P (VArr items).
Hypothesis Hobj :
  forall props, Forall (fun kv => P (snd kv)) props -> P (VObj props).

Fixpoint value_ind_nested (v : value) : P v :=
  match v with
  | VUndefined => Hundef
  | VNull => Hnull
  | VBool b => Hbool b
  | VNum n => Hnum n
  | VStr s => Hstr s
  | VArr items =>
      Harr items
        ((fix each (l : list value) : Forall P l :=
            match l with
            | [] => Forall_nil P
            | x :: l' => Forall_cons x (value_ind_nested x) (each l')
            end) items)
  | VObj props =>
      Hobj props
        ((fix each (l : list (string * value))
            : Forall (fun kv => P (snd kv)) l :=
            match l with
            | [] => Forall_nil _
            | kv :: l' =>
                Forall_cons kv (value_ind_nested (snd kv)) (each l')
            end) props)
  end.
End ValueInduction.

(** [x === null || x === undefined] *)
Definition isNullish (v : value) : bool :=
  match v with
  | VUndefined | VNull => true
  | _ => false
  end.

(** [Array.isArray(x)] *)
Definition isArray (v : value) : bool :=
  match v with
  | VArr _ => true
  | _ => false
  end.

(** The condition of [if (x)] and [x ? a : b]. *)
Definition truthy (v : value) : bool :=
  match v with
  | VUndefined | VNull => false
  | VBool b => b
  | VNum n => negb (n =? 0)%Z
  | VStr s => match s with EmptyString => false | String _ _ => true end
  | VArr _ | VObj _ => true
  end.

Fixpoint lookup (key : string) (props : list (string * value))
  : option value :=
  match props with
  | [] => None
  | (k, v) :: rest => if String.eqb key k then Some v else lookup key rest
  end.

(** The property read [x.key] on a value that is neither null nor
    undefined: an absent property reads as undefined; arrays and strings
    have their [length] (for a string, the number of its characters,
    each taken as one code unit). *)
Definition get (key : string) (v : value) : value :=
  match v with
  | VObj props =>
      match lookup key props with
      | Some x => x
      | None => VUndefined
      end
  | VArr items =>
      if String.eqb key "length" then VNum (Z.of_nat (List.length items))
      else VUndefined
  | VStr s =>
      if String.eqb key "length" then VNum (Z.of_nat (String.length s))
      else VUndefined
  | _ => VUndefined
  end.

(** [hay.includes(needle)] *)
Definition contains (needle hay : string) : Prop :=
  exists before after, hay = (before ++ needle ++ after)%string.

(** The digits of an integer. This is the string conversion of a number
    for the integers a number holds exactly and prints without an
    exponent (magnitude below 10^21), array lengths among them. *)
Definition decimal (n : Z) : string := NilZero.string_of_int (Z.to_int n).

(** The string conversion that [+] applies to a non-string operand. *)
Fixpoint toString (v : value) : string :=
  match v with
  | VUndefined => "undefined"
  | VNull => "null"
  | VBool true => "true"
  | VBool false => "false"
  | VNum n => decimal n
  | VStr s => s
  | VArr items =>
      String.concat ","
        (map (fun x => if isNullish x then "" else toString x) items)
  | VObj _ => "[object Object]"
  end.

End JS.
Export JS.

(* ================================================================== *)
(** ** Platform services *)

Module Platform.

(** [lightning/platformShowToastEvent]: the notice a component hands to
    [dispatchEvent]. [mode] is optional. *)
Record ShowToastEvent : Type := mkToast {
  title : string;
  message : string;
  variant : string;
  mode : option string
}.

(** A call of [console.log] or [console.error] with its arguments. *)
Inductive consoleCall : Type :=
| ConsoleLog (args : list value)
| ConsoleError (args : list value).

(** [@salesforce/schema/...]: a reference to an entity type or to one of
    its fields, as the import specifier names it. *)
Inductive schemaRef : Type :=
| SchemaObject (object : string)
| SchemaField (object field : string).

End Platform.
Export Platform.

(* ================================================================== *)
(** ** ldsUtils: the error reducer *)

Module LdsUtils.

(** Modelled from the spec: the source of [c/ldsUtils] is missing; the
    name of the field that holds page-level errors (the spec says only
    "a page-errors field"). *)
Definition pageErrorsKey : string := "pageErrors".

(** Modelled from the spec: the source of [c/ldsUtils] is missing; the
    name of the field that holds the field-errors mapping. *)
Definition fieldErrorsKey : string := "fieldErrors".

(** Modelled from the spec: the source of [c/ldsUtils] is missing; the
    fixed fallback literal of step 8. *)
Definition fallback : string := "Unknown error".

(** Modelled from the spec: the source of [c/ldsUtils] is missing; the
    [message] string an object exposes, if it exposes one. *)
Definition messageOf (e : value) : option string :=
  match e with
  | VObj _ =>
      match get "message" e with
      | VStr m => Some m
      | _ => None
      end
  | _ => None
  end.

(** Modelled from the spec: the source of [c/ldsUtils] is missing; "an
    ordered sequence of objects each with a message string", mapped to
    the messages in order. *)
Fixpoint messagesOf (es : list value) : option (list string) :=
  match es with
  | [] => Some []
  | e :: rest =>
      match messageOf e, messagesOf rest with
      | Some m, Some ms => Some (m :: ms)
      | _, _ => None
      end
  end.

(** Modelled from the spec: the source of [c/ldsUtils] is missing; step
    2, the page-errors field with at least one element, each element an
    object with a message string (shape 1 of section 3). *)
Definition pageErrors (error : value) : option (list string) :=
  match error with
  | VObj _ =>
      match get pageErrorsKey error with
      | VArr (e :: rest) => messagesOf (e :: rest)
      | _ => None
      end
  | _ => None
  end.

(** Modelled from the spec: the source of [c/ldsUtils] is missing; the
    flattening of step 3: every field in iteration order, every message
    of that field's error sequence in order. *)
Fixpoint fieldMessages (entries : list (string * value))
  : option (list string) :=
  match entries with
  | [] => Some []
  | (_, VArr es) :: rest =>
      match messagesOf es, fieldMessages rest with
      | Some ms, Some more => Some (ms ++ more)
      | _, _ => None
      end
  | _ :: _ => None
  end.

(** Modelled from the spec: the source of [c/ldsUtils] is missing; step
    3, the field-errors mapping with at least one entry, each entry a
    sequence of objects with a message string (shape 2 of section 3). *)
Definition fieldErrors (error : value) : option (list string) :=
  match error with
  | VObj _ =>
      match get fieldErrorsKey error with
      | VObj (entry :: rest) => fieldMessages (entry :: rest)
      | _ => None
      end
  | _ => None
  end.

(** Modelled from the spec: the source of [c/ldsUtils] is missing; step
    5, a nested [body.message] string. *)
Definition bodyMessage (error : value) : option string :=
  match error with
  | VObj _ => messageOf (get "body" error)
  | _ => None
  end.

(** Modelled from the spec: the source of [c/ldsUtils] is missing; step
    6, a top-level [message] string. *)
Definition topMessage (error : value) : option string := messageOf error.

(** Modelled from the spec: the source of [c/ldsUtils] is missing; step
    7, the input is itself a string. *)
Definition plainString (error : value) : option string :=
  match error with
  | VStr s => Some s
  | _ => None
  end.

(** Modelled from the spec: the source of [c/ldsUtils] is missing;
    [reduceErrors] is the shape dispatch of section 4.1, first match
    wins, steps 1 to 8 in order. *)
Fixpoint reduceErrors (error : value) : list string :=
  match error with
  | VUndefined | VNull => []
  | _ =>
      match pageErrors error with
      | Some msgs => msgs
      | None =>
      match fieldErrors error with
      | Some msgs => msgs
      | None =>
      match error with
      | VArr items => flat_map reduceErrors items
      | _ =>
      match bodyMessage error with
      | Some m => [m]
      | None =>
      match topMessage error with
      | Some m => [m]
      | None =>
      match plainString error with
      | Some s => [s]
      | None => [fallback]
      end end end end end end
  end.

(** Modelled from the spec: the source of [c/ldsUtils] is missing; the
    eight steps of the algorithm of section 4.1 as named rules. *)
Inductive rule : Type :=
| NullOrUndefined
| PageLevel
| FieldLevel
| Sequence
| BodyMessage
| TopMessage
| PlainString
| Fallback.

(** Modelled from the spec: the source of [c/ldsUtils] is missing; the
    order in which section 4.1 tries the rules. The precedence the spec
    fixes for objects is this order from [PageLevel] on. *)
Definition algorithm : list rule :=
  [NullOrUndefined; PageLevel; FieldLevel; Sequence; BodyMessage;
   TopMessage; PlainString; Fallback].

(** Modelled from the spec: the source of [c/ldsUtils] is missing; what
    one rule, taken alone, returns on an input it applies to ([None]:
    the rule does not apply). *)
Definition applies (r : rule) (error : value) : option (list string) :=
  match r with
  | NullOrUndefined => if isNullish error then Some [] else None
  | PageLevel => pageErrors error
  | FieldLevel => fieldErrors error
  | Sequence =>
      match error with
      | VArr items => Some (flat_map reduceErrors items)
      | _ => None
      end
  | BodyMessage => option_map (fun m => [m]) (bodyMessage error)
  | TopMessage => option_map (fun m => [m]) (topMessage error)
  | PlainString => option_map (fun s => [s]) (plainString error)
  | Fallback => Some [fallback]
  end.

(** Modelled from the spec: the source of [c/ldsUtils] is missing;
    "first match wins": the earliest rule of a list that applies, with
    what it returns. *)
Fixpoint firstApplicable (rules : list rule) (error : value)
  : option (rule * list string) :=
  match rules with
  | [] => None
  | r :: rest =>
      match applies r error with
      | Some out => Some (r, out)
      | None => firstApplicable rest error
      end
  end.

End LdsUtils.
Export LdsUtils.

(* ================================================================== *)
(** ** ContactCreator *)

Module ContactCreator.

(** [import CONTACT_OBJECT from '@salesforce/schema/Contact'] and the
    three field imports. *)
Definition CONTACT_OBJECT : schemaRef := SchemaObject "Contact".
Definition FIRST_NAME_FIELD : schemaRef := SchemaField "Contact" "FirstName".
Definition LAST_NAME_FIELD : schemaRef := SchemaField "Contact" "LastName".
Definition EMAIL_FIELD : schemaRef := SchemaField "Contact" "Email".

(** The success event of the record form: [event.detail.id]. *)
Record successDetail : Type := { id : value }.
Record successEvent : Type := { detail : successDetail }.

(** The component instance: its two public fields and the events it has
    dispatched, oldest first. *)
Record component : Type := mkComponent {
  objectApiName : schemaRef;
  fields : list schemaRef;
  dispatched : list ShowToastEvent
}.

(** The instance as the class body initialises it. *)
Definition create : component :=
  {| objectApiName := CONTACT_OBJECT;
     fields := [FIRST_NAME_FIELD; LAST_NAME_FIELD; EMAIL_FIELD];
     dispatched := [] |}.

Definition dispatchEvent (this : component) (e : ShowToastEvent)
  : component :=
  {| objectApiName := objectApiName this;
     fields := fields this;
     dispatched := dispatched this ++ [e] |}.

Definition handleSuccess (this : component) (event : successEvent)
  : component :=
  let toastEvent :=
    {| title := "Contact created";
       message := "Record ID: " ++ toString (id (detail event));
       variant := "success";
       mode := None |} in
  dispatchEvent this toastEvent.

End ContactCreator.

(* ================================================================== *)
(** ** ContactList *)

(** What the wire service hands to the wired method: [result.data] and
    [result.error], each undefined when absent. *)
Module Wire.
Record result : Type := { data : value; error : value }.
End Wire.

(** The source holds two revisions of the component (1.0 and 1.1); 1.1
    adds the [errors] getter and leaves every other member as it was, so
    one embedding serves both. *)
Module ContactList.

Record column : Type := {
  label : string;
  fieldName : string;
  type : string;
  sortable : bool;
  initialWidth : Z
}.

(** The component instance: its four fields, the events it has
    dispatched and the console calls it has made, oldest first. *)
Record component : Type := mkComponent {
  contacts : value;
  columns : list column;
  isLoading : bool;
  error : value;
  dispatched : list ShowToastEvent;
  console : list consoleCall
}.

(** The instance as the class body initialises it. *)
Definition create : component :=
  {| contacts := VArr [];
     columns :=
       [ {| label := "First Name"; fieldName := "FirstName"; type := "text";
            sortable := true; initialWidth := 150 |};
         {| label := "Last Name"; fieldName := "LastName"; type := "text";
            sortable := true; initialWidth := 150 |};
         {| label := "Email"; fieldName := "Email"; type := "email";
            sortable := true; initialWidth := 250 |} ];
     isLoading := true;
     error := VUndefined;
     dispatched := [];
     console := [] |}.

Definition set_contacts (x : value) (this : component) : component :=
  mkComponent x (columns this) (isLoading this) (error this)
    (dispatched this) (console this).

Definition set_isLoading (x : bool) (this : component) : component :=
  mkComponent (contacts this) (columns this) x (error this)
    (dispatched this) (console this).

Definition set_error (x : value) (this : component) : component :=
  mkComponent (contacts this) (columns this) (isLoading this) x
    (dispatched this) (console this).

Definition dispatchEvent (this : component) (e : ShowToastEvent)
  : component :=
  mkComponent (contacts this) (columns this) (isLoading this) (error this)
    (dispatched this ++ [e]) (console this).

Definition consoleCalled (c : consoleCall) (this : component) : component :=
  mkComponent (contacts this) (columns this) (isLoading this) (error this)
    (dispatched this) (console this ++ [c]).

(** [showErrorToast(error)]: the parameter is not read. *)
Definition showErrorToast (this : component) (error : value) : component :=
  let toastEvent :=
    {| title := "Error Loading Contacts";
       message := "Unable to retrieve contact data. Please try again.";
       variant := "error";
       mode := Some "sticky" |} in
  dispatchEvent this toastEvent.

Definition wiredContacts (this : component) (result : Wire.result)
  : component :=
  let this := set_isLoading false this in
  if truthy (Wire.data result) then
    let this := set_contacts (Wire.data result) this in
    let this := set_error VUndefined this in
    consoleCalled
      (ConsoleLog
         [VStr ("Retrieved " ++ toString (get "length" (contacts this))
                  ++ " contacts")])
      this
  else if truthy (Wire.error result) then
    let this := set_error (Wire.error result) this in
    let this := set_contacts (VArr []) this in
    let this :=
      consoleCalled
        (ConsoleError [VStr "Error retrieving contacts:"; Wire.error result])
        this in
    showErrorToast this (Wire.error result)
  else this.

(** A result together with the arguments of the calls of the imported
    [reduceErrors] made to obtain it, in call order. *)
Record traced (A : Type) : Type := mkTraced { calls : list value; returned : A }.
Arguments mkTraced {A} _ _.
Arguments calls {A} _.
Arguments returned {A} _.

Definition callReduceErrors (arg : value) : traced (list string) :=
  mkTraced [arg] (reduceErrors arg).

Definition noCall {A : Type} (a : A) : traced A := mkTraced [] a.

(** [get errors()] *)
Definition errors (this : component) : traced (list string) :=
  if truthy (error this) then callReduceErrors (error this) else noCall [].

End ContactList.

(* ================================================================== *)
(** ** Successive deliveries and successive creations *)

(** The wire service calls the wired method again whenever it has a new
    result, and the record form calls the success handler once per
    record created: the component after a sequence of such calls. *)
Module Deliveries.

(** The branch of [wiredContacts] a result takes: the first when
    [result.data] is truthy. *)
Definition carriesData (result : Wire.result) : bool :=
  truthy (Wire.data result).

(** The second branch: [result.data] falsy and [result.error] truthy. *)
Definition carriesError (result : Wire.result) : bool :=
  negb (truthy (Wire.data result)) && truthy (Wire.error result).

(** The toast [showErrorToast] builds. *)
Definition errorToast : ShowToastEvent :=
  mkToast "Error Loading Contacts"
    "Unable to retrieve contact data. Please try again."
    "error" (Some "sticky").

(** The wired method called with each result in turn. *)
Definition deliver (this : ContactList.component)
  (results : list Wire.result) : ContactList.component :=
  fold_left ContactList.wiredContacts results this.

(** The success handler called with each event in turn. *)
Definition succeed (this : ContactCreator.component)
  (events : list ContactCreator.successEvent) : ContactCreator.component :=
  fold_left ContactCreator.handleSuccess events this.

(** The success event of the record form for a new record whose
    identifier is the string [recordId]. *)
Definition created (recordId : string) : ContactCreator.successEvent :=
  {| ContactCreator.detail := {| ContactCreator.id := VStr recordId |} |}.

(** The raw errors handed to [console.error], oldest first: the second
    argument of each call. *)
Definition loggedErrors (calls : list consoleCall) : list value :=
  flat_map
    (fun c =>
       match c with
       | ConsoleError (_ :: e :: _) => [e]
       | _ => []
       end)
    calls.

End Deliveries.
Export Deliveries.

(* ================================================================== *)
(** * Properties of the error reducer *)

Module LdsUtilsProps.

(** The body of [reduceErrors], one step at a time. *)
Lemma reduceErrors_steps (error : value) :
  reduceErrors error =
  if isNullish error then [] else
  match pageErrors error with
  | Some msgs => msgs
  | None =>
  match fieldErrors error with
  | Some msgs => msgs
  | None =>
  match error with
  | VArr items => flat_map reduceErrors items
  | _ =>
  match bodyMessage error with
  | Some m => [m]
  | None =>
  match topMessage error with
  | Some m => [m]
  | None =>
  match plainString error with
  | Some s => [s]
  | None => [fallback]
  end end end end end end.
Proof. destruct error; reflexivity. Qed.

Lemma reduceErrors_array (items : list value) :
  reduceErrors (VArr items) = flat_map reduceErrors items.
Proof. reflexivity. Qed.

Lemma flat_map_concat_map {A B : Type} (f : A -> list B) (l : list A) :
  flat_map f l = List.concat (map f l).
Proof. induction l as [|x l IH]; simpl; [reflexivity | now rewrite IH]. Qed.

(** C4: on null and on undefined [reduceErrors] returns the empty
    sequence. *)
Theorem reduceErrors_null_undefined :
  reduceErrors VNull = [] /\ reduceErrors VUndefined = [] /\
  (forall error, isNullish error = true <-> error = VNull \/ error = VUndefined).
Proof.
  split; [reflexivity | split; [reflexivity |]].
  intros error; split.
  - destruct error; simpl; intros H; try discriminate H; auto.
  - intros [->| ->]; reflexivity.
Qed.

(** C5: an input that is itself a sequence reduces to the concatenation,
    in sequence order, of the reductions of its elements, whatever shape
    each element has; a sequence nested in a sequence is flattened with
    it; and [{message:"x"}, "y", {body:{message:"z"}}] reduces to
    ["x", "y", "z"]. *)
Theorem reduceErrors_sequence :
  (forall items : list value,
      reduceErrors (VArr items) = List.concat (map reduceErrors items)) /\
  (forall inner rest : list value,
      reduceErrors (VArr (VArr inner :: rest)) =
      reduceErrors (VArr (inner ++ rest))) /\
  reduceErrors
    (VArr [VObj [("message", VStr "x")];
           VStr "y";
           VObj [("body", VObj [("message", VStr "z")])]])
  = ["x"; "y"; "z"].
Proof.
  split; [|split].
  - intros items. rewrite reduceErrors_array. apply flat_map_concat_map.
  - intros inner rest.
    rewrite (reduceErrors_array (inner ++ rest)), flat_map_app.
    reflexivity.
  - reflexivity.
Qed.

(** C6: an input that is neither null nor undefined and matches none of
    the recognised shapes (no page-errors field, no field-errors
    mapping, not a sequence, no body.message, no top-level message, not
    a string) reduces to the one-element sequence holding the literal
    "Unknown error". *)
Theorem reduceErrors_fallback :
  forall error : value,
    isNullish error = false ->
    pageErrors error = None ->
    fieldErrors error = None ->
    isArray error = false ->
    bodyMessage error = None ->
    topMessage error = None ->
    plainString error = None ->
    reduceErrors error = ["Unknown error"].
Proof.
  intros error Hnull Hpage Hfield Harr Hbody Htop Hstr.
  rewrite reduceErrors_steps, Hnull, Hpage, Hfield, Hbody, Htop, Hstr.
  destruct error; try discriminate; reflexivity.
Qed.

(** The object [{foo: 1}] of the spec's example. *)
Lemma reduceErrors_fallback_witness :
  reduceErrors (VObj [("foo", VNum 1)]) = ["Unknown error"].
Proof.
  apply (reduceErrors_fallback (VObj [("foo", VNum 1)])); reflexivity.
Defined.

(** [reduceErrors] returns what the earliest applicable rule returns. *)
Lemma reduceErrors_firstApplicable (error : value) :
  option_map snd (firstApplicable algorithm error)
  = Some (reduceErrors error).
Proof.
  rewrite reduceErrors_steps. unfold algorithm, firstApplicable, applies.
  destruct (isNullish error) eqn:Hnull; [reflexivity|].
  destruct (pageErrors error); [reflexivity|].
  destruct (fieldErrors error); [reflexivity|].
  destruct error; try discriminate; try reflexivity;
    destruct (bodyMessage _); try reflexivity;
    destruct (topMessage _); try reflexivity;
    destruct (plainString _); reflexivity.
Qed.

Lemma firstApplicable_split (error : value) (r : rule) (out : list string) :
  forall earlier later,
    Forall (fun r' => applies r' error = None) earlier ->
    applies r error = Some out ->
    firstApplicable (earlier ++ r :: later) error = Some (r, out).
Proof.
  intros earlier later Hearlier Happ.
  induction Hearlier as [|r' l Hr' _ IH]; simpl.
  - now rewrite Happ.
  - now rewrite Hr'.
Qed.

(** C2: whatever shapes an input satisfies, [reduceErrors] resolves it
    by the earliest rule that applies, in the fixed order null/undefined,
    page-level, field-level, list, body.message, top-level message,
    plain string, fallback: when no rule before [r] applies and [r]
    does, the result is what [r] returns. In particular an object with
    a non-empty page-errors field and a top-level message satisfies
    both shapes and reduces to the page messages, whatever its message
    field holds. *)
Theorem reduceErrors_precedence :
  algorithm =
    [NullOrUndefined; PageLevel; FieldLevel; Sequence; BodyMessage;
     TopMessage; PlainString; Fallback] /\
  (forall (error : value) (earlier later : list rule) (r : rule)
          (out : list string),
      algorithm = earlier ++ r :: later ->
      Forall (fun r' => applies r' error = None) earlier ->
      applies r error = Some out ->
      reduceErrors error = out) /\
  (forall (props : list (string * value)) (e : value) (es : list value)
          (msgs : list string) (m : string),
      lookup pageErrorsKey props = Some (VArr (e :: es)) ->
      messagesOf (e :: es) = Some msgs ->
      lookup "message" props = Some (VStr m) ->
      applies PageLevel (VObj props) = Some msgs /\
      applies TopMessage (VObj props) = Some [m] /\
      reduceErrors (VObj props) = msgs).
Proof.
  split; [reflexivity | split].
  - intros error earlier later r out Halg Hearlier Happ.
    pose proof (reduceErrors_firstApplicable error) as Hfirst.
    rewrite Halg, (firstApplicable_split error r out) in Hfirst
      by assumption.
    simpl in Hfirst. congruence.
  - intros props e es msgs m Hpage Hmsgs Hmessage.
    assert (Hp : pageErrors (VObj props) = Some msgs).
    { unfold pageErrors, get. rewrite Hpage. exact Hmsgs. }
    repeat split.
    + exact Hp.
    + unfold applies, topMessage, messageOf, get. now rewrite Hmessage.
    + rewrite reduceErrors_steps, Hp. reflexivity.
Qed.

(** An object with both a non-empty page-errors field and a top-level
    message, resolved by the page-level rule, the second of the order. *)
Lemma reduceErrors_precedence_witness :
  reduceErrors
    (VObj [("message", VStr "m");
           ("pageErrors",
            VArr [VObj [("message", VStr "a")];
                  VObj [("message", VStr "b")]])])
  = ["a"; "b"].
Proof.
  apply (proj1 (proj2 reduceErrors_precedence) _
           [NullOrUndefined]
           [FieldLevel; Sequence; BodyMessage; TopMessage; PlainString;
            Fallback]
           PageLevel);
    [reflexivity | repeat constructor | reflexivity].
Defined.

End LdsUtilsProps.

(* ================================================================== *)
(** * Properties of ContactCreator *)

Module ContactCreatorProps.
Import ContactCreator.

Lemma contains_suffix (before needle : string) :
  contains needle (before ++ needle)%string.
Proof.
  exists before, EmptyString.
  assert (Hnil : forall s : string, (s ++ "")%string = s)
    by (induction s as [|c s IH]; simpl; [|rewrite IH]; reflexivity).
  now rewrite Hnil.
Qed.

(** C8: the record-creation component is configured with the entity
    type Contact and the field sequence FirstName, LastName, Email, in
    that order; [handleSuccess], the callback of a successful creation,
    receives the new record's identifier in [event.detail.id], leaves
    the configuration as it is and dispatches one success notification
    whose message is "Record ID: " followed by that identifier. *)
Theorem handleSuccess_reports_id :
  objectApiName create = SchemaObject "Contact" /\
  fields create =
    [SchemaField "Contact" "FirstName"; SchemaField "Contact" "LastName";
     SchemaField "Contact" "Email"] /\
  (forall (this : component) (event : successEvent),
      objectApiName (handleSuccess this event) = objectApiName this /\
      fields (handleSuccess this event) = fields this /\
      exists toast : ShowToastEvent,
        dispatched (handleSuccess this event) = dispatched this ++ [toast] /\
        title toast = "Contact created" /\
        variant toast = "success" /\
        message toast
        = ("Record ID: " ++ toString (id (detail event)))%string /\
        contains (toString (id (detail event))) (message toast)) /\
  (forall (this : component) (recordId : string),
      exists toast : ShowToastEvent,
        dispatched
          (handleSuccess this {| detail := {| id := VStr recordId |} |})
        = dispatched this ++ [toast] /\
        contains recordId (message toast)).
Proof.
  split; [reflexivity | split; [reflexivity | split]].
  - intros this event. split; [reflexivity | split; [reflexivity |]].
    eexists. split; [reflexivity |].
    repeat split. apply contains_suffix.
  - intros this recordId. eexists. split; [reflexivity |].
    apply (contains_suffix "Record ID: " recordId).
Qed.

End ContactCreatorProps.

(* ================================================================== *)
(** * Properties of ContactList *)

Module ContactListProps.
Import ContactList.

(** The wired method on a result with an error and no data. *)
Lemma wiredContacts_error_branch (this : component) (result : Wire.result) :
  truthy (Wire.data result) = false ->
  truthy (Wire.error result) = true ->
  wiredContacts this result =
  mkComponent (VArr []) (columns this) false (Wire.error result)
    (dispatched this
       ++ [mkToast "Error Loading Contacts"
             "Unable to retrieve contact data. Please try again."
             "error" (Some "sticky")])
    (console this
       ++ [ConsoleError
             [VStr "Error retrieving contacts:"; Wire.error result]]).
Proof.
  intros Hdata Herror. unfold wiredContacts. rewrite Hdata, Herror.
  reflexivity.
Qed.

(** The wired method on a result with data. *)
Lemma wiredContacts_data_branch (this : component) (result : Wire.result) :
  truthy (Wire.data result) = true ->
  wiredContacts this result =
  mkComponent (Wire.data result) (columns this) false VUndefined
    (dispatched this)
    (console this
       ++ [ConsoleLog
             [VStr ("Retrieved "
                      ++ toString (get "length" (Wire.data result))
                      ++ " contacts")]]).
Proof.
  intros Hdata. unfold wiredContacts. rewrite Hdata. reflexivity.
Qed.

Lemma truthy_not_nullish (v : value) : truthy v = true -> isNullish v = false.
Proof. destruct v; simpl; intros H; (discriminate H || reflexivity). Qed.

(** C9: when the wired method is delivered a result carrying an error
    ([result.error] truthy) and no data ([result.data] falsy), afterwards [contacts] is the empty array, [error] is
    the delivered error, [isLoading] is false and exactly one toast, of
    variant error, has been dispatched; when it is delivered data
    ([result.data] truthy), [error] is undefined afterwards. *)
Theorem wiredContacts_outcome :
  forall (this : component) (result : Wire.result),
    (truthy (Wire.data result) = false ->
     truthy (Wire.error result) = true ->
     contacts (wiredContacts this result) = VArr [] /\
     error (wiredContacts this result) = Wire.error result /\
     isLoading (wiredContacts this result) = false /\
     exists toast : ShowToastEvent,
       dispatched (wiredContacts this result) = dispatched this ++ [toast] /\
       variant toast = "error" /\
       title toast = "Error Loading Contacts") /\
    (truthy (Wire.data result) = true ->
     error (wiredContacts this result) = VUndefined /\
     contacts (wiredContacts this result) = Wire.data result /\
     isLoading (wiredContacts this result) = false /\
     dispatched (wiredContacts this result) = dispatched this).
Proof.
  intros this result. split.
  - intros Hdata Herror.
    rewrite (wiredContacts_error_branch this result Hdata Herror). simpl.
    repeat split. eexists. repeat split.
  - intros Hdata. rewrite (wiredContacts_data_branch this result Hdata).
    repeat split.
Qed.

(** A freshly created component that is delivered the error "boom", and
    one that is delivered an empty list of contacts. *)
Lemma wiredContacts_outcome_witness :
  error
    (wiredContacts create
       {| Wire.data := VUndefined; Wire.error := VStr "boom" |})
  = VStr "boom" /\
  error
    (wiredContacts
       (wiredContacts create
          {| Wire.data := VUndefined; Wire.error := VStr "boom" |})
       {| Wire.data := VArr []; Wire.error := VUndefined |})
  = VUndefined.
Proof.
  split.
  - apply (proj1 (wiredContacts_outcome create
                    {| Wire.data := VUndefined;
                       Wire.error := VStr "boom" |}));
      reflexivity.
  - apply (proj2 (wiredContacts_outcome
                    (wiredContacts create
                       {| Wire.data := VUndefined;
                          Wire.error := VStr "boom" |})
                    {| Wire.data := VArr []; Wire.error := VUndefined |}));
      reflexivity.
Defined.

(** C10: the [errors] getter returns the empty array, without calling
    [reduceErrors], when the [error] property is falsy; otherwise it
    returns [reduceErrors(error)], from one call; and no call it makes
    has null or undefined for argument. *)
Theorem errors_getter :
  forall this : component,
    (truthy (error this) = false ->
     returned (errors this) = [] /\ calls (errors this) = []) /\
    (truthy (error this) = true ->
     returned (errors this) = reduceErrors (error this) /\
     calls (errors this) = [error this]) /\
    Forall (fun arg => isNullish arg = false) (calls (errors this)).
Proof.
  intros this. unfold errors.
  destruct (truthy (error this)) eqn:Htruthy; simpl.
  - split; [discriminate | split; [auto |]].
    constructor; [now apply truthy_not_nullish | constructor].
  - split; [auto | split; [discriminate | constructor]].
Qed.

(** The getter on a fresh component and after an error was delivered. *)
Lemma errors_getter_witness :
  returned (errors create) = [] /\
  returned
    (errors
       (wiredContacts create
          {| Wire.data := VUndefined; Wire.error := VStr "boom" |}))
  = ["boom"].
Proof.
  split.
  - apply (proj1 (errors_getter create)). reflexivity.
  - apply (proj1 (proj2 (errors_getter
                           (wiredContacts create
                              {| Wire.data := VUndefined;
                                 Wire.error := VStr "boom" |})))).
    reflexivity.
Defined.

(** C7, as the component has it: when the list fetch delivers an error,
    the notification the component dispatches carries the fixed message
    "Unable to retrieve contact data. Please try again.", whatever the
    error is; the strings [reduceErrors] produces from the error are
    what the [errors] getter returns afterwards, and the getter
    dispatches nothing. *)
Theorem error_toast_fixed_message :
  forall (this : component) (result : Wire.result),
    truthy (Wire.data result) = false ->
    truthy (Wire.error result) = true ->
    (exists toast : ShowToastEvent,
        dispatched (wiredContacts this result) = dispatched this ++ [toast] /\
        message toast
        = "Unable to retrieve contact data. Please try again.") /\
    returned (errors (wiredContacts this result))
    = reduceErrors (Wire.error result).
Proof.
  intros this result Hdata Herror.
  rewrite (wiredContacts_error_branch this result Hdata Herror).
  split.
  - eexists. split; reflexivity.
  - unfold errors. simpl. rewrite Herror. reflexivity.
Qed.

Lemma error_toast_fixed_message_witness :
  returned
    (errors
       (wiredContacts create
          {| Wire.data := VUndefined;
             Wire.error :=
               VObj [("body", VObj [("message", VStr "Insufficient access")])]
          |}))
  = ["Insufficient access"].
Proof.
  apply (proj2 (error_toast_fixed_message create
                  {| Wire.data := VUndefined;
                     Wire.error :=
                       VObj [("body",
                              VObj [("message", VStr "Insufficient access")])]
                  |} eq_refl eq_refl)).
Defined.

(** C7, as stated, fails: delivered the error
    [{body: {message: "Insufficient access"}}], which reduces to
    ["Insufficient access"], the component dispatches a notification
    whose message is none of the reduced strings. *)
Lemma error_toast_ignores_reduced_messages :
  reduceErrors
    (VObj [("body", VObj [("message", VStr "Insufficient access")])])
  = ["Insufficient access"] /\
  map message
    (dispatched
       (wiredContacts create
          {| Wire.data := VUndefined;
             Wire.error :=
               VObj [("body", VObj [("message", VStr "Insufficient access")])]
          |}))
  = ["Unable to retrieve contact data. Please try again."] /\
  ~ In "Unable to retrieve contact data. Please try again."
      (reduceErrors
         (VObj [("body", VObj [("message", VStr "Insufficient access")])])).
Proof.
  split; [reflexivity | split; [reflexivity |]].
  simpl. intros [H | []]. discriminate H.
Qed.

End ContactListProps.

(* ================================================================== *)
(** * Properties of successive deliveries to ContactList *)

Module DeliveriesProps.
Import ContactList.

(** The wired method on a result with neither data nor error. *)
Lemma wiredContacts_idle_branch (this : component) (result : Wire.result) :
  truthy (Wire.data result) = false ->
  truthy (Wire.error result) = false ->
  wiredContacts this result =
  mkComponent (contacts this) (columns this) false (error this)
    (dispatched this) (console this).
Proof.
  intros Hdata Herror. unfold wiredContacts. rewrite Hdata, Herror.
  reflexivity.
Qed.

Lemma wiredContacts_isLoading (this : component) (result : Wire.result) :
  isLoading (wiredContacts this result) = false.
Proof.
  unfold wiredContacts.
  destruct (truthy (Wire.data result)), (truthy (Wire.error result));
    reflexivity.
Qed.

Lemma wiredContacts_columns (this : component) (result : Wire.result) :
  columns (wiredContacts this result) = columns this.
Proof.
  unfold wiredContacts.
  destruct (truthy (Wire.data result)), (truthy (Wire.error result));
    reflexivity.
Qed.

Lemma wiredContacts_dispatched (this : component) (result : Wire.result) :
  dispatched (wiredContacts this result) =
  dispatched this ++ (if carriesError result then [errorToast] else []).
Proof.
  unfold wiredContacts, carriesError.
  destruct (truthy (Wire.data result)), (truthy (Wire.error result));
    simpl; rewrite ?app_nil_r; reflexivity.
Qed.

Lemma loggedErrors_app (l1 l2 : list consoleCall) :
  loggedErrors (l1 ++ l2) = loggedErrors l1 ++ loggedErrors l2.
Proof. apply flat_map_app. Qed.

Lemma wiredContacts_loggedErrors (this : component) (result : Wire.result) :
  loggedErrors (console (wiredContacts this result)) =
  loggedErrors (console this)
  ++ (if carriesError result then [Wire.error result] else []).
Proof.
  unfold wiredContacts, carriesError.
  destruct (truthy (Wire.data result)), (truthy (Wire.error result));
    simpl; rewrite ?loggedErrors_app, ?app_nil_r; reflexivity.
Qed.

Lemma deliver_cons (this : component) (r : Wire.result)
  (results : list Wire.result) :
  deliver this (r :: results) = deliver (wiredContacts this r) results.
Proof. reflexivity. Qed.

Lemma deliver_snoc (this : component) (results : list Wire.result)
  (r : Wire.result) :
  deliver this (results ++ [r]) = wiredContacts (deliver this results) r.
Proof. unfold deliver. now rewrite fold_left_app. Qed.

(** X1: a result with neither data nor error (both falsy) only ends the
    loading state: the contacts and the error of an earlier delivery
    stay as they were, nothing is dispatched and nothing is logged. *)
Theorem wiredContacts_empty_result :
  forall (this : component) (result : Wire.result),
    truthy (Wire.data result) = false ->
    truthy (Wire.error result) = false ->
    isLoading (wiredContacts this result) = false /\
    contacts (wiredContacts this result) = contacts this /\
    error (wiredContacts this result) = error this /\
    dispatched (wiredContacts this result) = dispatched this /\
    console (wiredContacts this result) = console this.
Proof.
  intros this result Hdata Herror.
  rewrite (wiredContacts_idle_branch this result Hdata Herror).
  repeat split.
Qed.

(** After the error "boom", a result that carries nothing leaves the
    error in place. *)
Lemma wiredContacts_empty_result_witness :
  error
    (wiredContacts
       (wiredContacts create
          {| Wire.data := VUndefined; Wire.error := VStr "boom" |})
       {| Wire.data := VUndefined; Wire.error := VUndefined |})
  = VStr "boom".
Proof.
  apply (wiredContacts_empty_result
           (wiredContacts create
              {| Wire.data := VUndefined; Wire.error := VStr "boom" |})
           {| Wire.data := VUndefined; Wire.error := VUndefined |}
           eq_refl eq_refl).
Defined.

(** X2: once the wired method has run, whatever the results were and
    however many followed, the component is no longer loading, and its
    column definitions are the ones it started with. *)
Theorem deliver_isLoading_columns :
  forall (this : component) (r : Wire.result) (results : list Wire.result),
    isLoading (deliver this (r :: results)) = false /\
    columns (deliver this (r :: results)) = columns this.
Proof.
  intros this r results.
  destruct (@exists_last _ (r :: results)) as [front [final Hsplit]];
    [discriminate|].
  rewrite Hsplit, deliver_snoc. split.
  - apply wiredContacts_isLoading.
  - rewrite <- deliver_snoc, <- Hsplit. clear Hsplit front final.
    revert this r. induction results as [|r' rest IH]; intros this r.
    + apply wiredContacts_columns.
    + rewrite deliver_cons, IH. apply wiredContacts_columns.
Qed.

Lemma wiredContacts_keeps_error_invariant (this : component)
  (result : Wire.result) :
  (truthy (error this) = true -> contacts this = VArr []) ->
  truthy (error (wiredContacts this result)) = true ->
  contacts (wiredContacts this result) = VArr [].
Proof.
  intros Hinv. unfold wiredContacts.
  destruct (truthy (Wire.data result)) eqn:Hdata;
    [simpl; discriminate|].
  destruct (truthy (Wire.error result)) eqn:Herror; simpl; auto.
Qed.

(** X3: in a component created and then delivered any sequence of
    results, an error is never shown beside contacts: whenever the
    [error] property is truthy, [contacts] is the empty array. *)
Theorem error_implies_no_contacts :
  forall results : list Wire.result,
    truthy (error (deliver create results)) = true ->
    contacts (deliver create results) = VArr [].
Proof.
  intros results.
  induction results as [|r front IH] using rev_ind.
  - simpl. discriminate.
  - rewrite deliver_snoc. apply wiredContacts_keeps_error_invariant, IH.
Qed.

(** Contacts are delivered, then the fetch fails. *)
Lemma error_implies_no_contacts_witness :
  contacts
    (deliver create
       [ {| Wire.data := VArr [VObj [("LastName", VStr "Ng")]];
            Wire.error := VUndefined |};
         {| Wire.data := VUndefined; Wire.error := VStr "boom" |} ])
  = VArr [].
Proof.
  apply (error_implies_no_contacts
           [ {| Wire.data := VArr [VObj [("LastName", VStr "Ng")]];
                Wire.error := VUndefined |};
             {| Wire.data := VUndefined; Wire.error := VStr "boom" |} ]).
  reflexivity.
Defined.

(** X4: over any sequence of deliveries the component dispatches one
    toast per result that carries an error and no data, and nothing
    else; every one of them is the same sticky error toast, so the same
    error delivered again raises the toast again. *)
Theorem deliver_toasts :
  forall (this : component) (results : list Wire.result),
    dispatched (deliver this results) =
    dispatched this
    ++ repeat errorToast (List.length (filter carriesError results)).
Proof.
  intros this results. revert this.
  induction results as [|r rest IH]; intros this.
  - simpl. now rewrite app_nil_r.
  - rewrite deliver_cons, IH, wiredContacts_dispatched. simpl.
    destruct (carriesError r); simpl.
    + now rewrite <- app_assoc.
    + now rewrite app_nil_r.
Qed.

(** X5: the raw errors the component hands to [console.error] over any
    sequence of deliveries are exactly the errors of the results that
    carry an error and no data, in delivery order: every error toast has
    its raw error logged beside it. *)
Theorem deliver_logged_errors :
  forall (this : component) (results : list Wire.result),
    loggedErrors (console (deliver this results)) =
    loggedErrors (console this)
    ++ map Wire.error (filter carriesError results).
Proof.
  intros this results. revert this.
  induction results as [|r rest IH]; intros this.
  - simpl. now rewrite app_nil_r.
  - rewrite deliver_cons, IH, wiredContacts_loggedErrors. simpl.
    destruct (carriesError r); simpl.
    + now rewrite <- app_assoc.
    + now rewrite app_nil_r.
Qed.

(** X6: what the [errors] getter returns after a sequence of deliveries
    is decided by the last result alone when that result carries data
    or an error: after data the getter returns the empty array without
    calling [reduceErrors], whatever errors came before; after an error
    it returns the reduction of that error, from one call. *)
Theorem errors_after_deliveries :
  forall (this : component) (results : list Wire.result)
         (final : Wire.result),
    (carriesData final = true ->
     errors (deliver this (results ++ [final])) = noCall []) /\
    (carriesError final = true ->
     errors (deliver this (results ++ [final]))
     = callReduceErrors (Wire.error final)).
Proof.
  intros this results final. rewrite deliver_snoc.
  unfold carriesData, carriesError. split.
  - intros Hdata.
    rewrite (ContactListProps.wiredContacts_data_branch _ _ Hdata).
    reflexivity.
  - intros Hcarries. apply andb_prop in Hcarries as [Hdata Herror].
    apply Bool.negb_true_iff in Hdata.
    rewrite (ContactListProps.wiredContacts_error_branch _ _ Hdata Herror).
    unfold errors. simpl. now rewrite Herror.
Qed.

(** The fetch fails, then succeeds: the getter is empty again. *)
Lemma errors_after_deliveries_witness :
  errors
    (deliver create
       ([ {| Wire.data := VUndefined; Wire.error := VStr "boom" |} ]
          ++ [ {| Wire.data := VArr []; Wire.error := VUndefined |} ]))
  = noCall [].
Proof.
  apply (proj1 (errors_after_deliveries create
                  [ {| Wire.data := VUndefined; Wire.error := VStr "boom" |} ]
                  {| Wire.data := VArr []; Wire.error := VUndefined |})).
  reflexivity.
Defined.

(** X7: a delivered array of contacts, the empty array included, counts
    as data: it becomes [contacts], the error is cleared, no toast is
    dispatched, and the one console line added reports the number of
    elements of the array in decimal. *)
Theorem wiredContacts_array :
  forall (this : component) (result : Wire.result) (items : list value),
    Wire.data result = VArr items ->
    contacts (wiredContacts this result) = VArr items /\
    error (wiredContacts this result) = VUndefined /\
    dispatched (wiredContacts this result) = dispatched this /\
    console (wiredContacts this result) =
    console this
    ++ [ConsoleLog
          [VStr ("Retrieved " ++ decimal (Z.of_nat (List.length items))
                   ++ " contacts")]].
Proof.
  intros this result items Hitems.
  assert (Hdata : truthy (Wire.data result) = true) by now rewrite Hitems.
  rewrite (ContactListProps.wiredContacts_data_branch _ _ Hdata), Hitems.
  repeat split.
Qed.

(** An empty list of contacts delivered after an error. *)
Lemma wiredContacts_array_witness :
  console
    (wiredContacts create
       {| Wire.data := VArr []; Wire.error := VStr "ignored" |})
  = [ConsoleLog [VStr "Retrieved 0 contacts"]].
Proof.
  apply (wiredContacts_array create
           {| Wire.data := VArr []; Wire.error := VStr "ignored" |} []
           eq_refl).
Defined.

(** X8: a result that carries data or an error overwrites what the
    component shows: [contacts], [error] and [isLoading] after the call
    are the same whatever state the component was in before. *)
Theorem wiredContacts_overwrites :
  forall (this other : component) (result : Wire.result),
    carriesData result = true \/ carriesError result = true ->
    contacts (wiredContacts this result)
    = contacts (wiredContacts other result) /\
    error (wiredContacts this result)
    = error (wiredContacts other result) /\
    isLoading (wiredContacts this result)
    = isLoading (wiredContacts other result).
Proof.
  intros this other result. unfold carriesData, carriesError.
  intros [Hdata | Hcarries].
  - rewrite !(ContactListProps.wiredContacts_data_branch _ _ Hdata).
    repeat split.
  - apply andb_prop in Hcarries as [Hdata Herror].
    apply Bool.negb_true_iff in Hdata.
    rewrite !(ContactListProps.wiredContacts_error_branch _ _ Hdata Herror).
    repeat split.
Qed.

Lemma wiredContacts_overwrites_witness :
  contacts
    (wiredContacts create
       {| Wire.data := VArr [VStr "c"]; Wire.error := VUndefined |})
  = contacts
      (wiredContacts
         (wiredContacts create
            {| Wire.data := VUndefined; Wire.error := VStr "boom" |})
         {| Wire.data := VArr [VStr "c"]; Wire.error := VUndefined |}).
Proof.
  apply (wiredContacts_overwrites create
           (wiredContacts create
              {| Wire.data := VUndefined; Wire.error := VStr "boom" |})
           {| Wire.data := VArr [VStr "c"]; Wire.error := VUndefined |}).
  left. reflexivity.
Defined.

(** X9: delivering the same result a second time changes nothing the
    component shows: [contacts], [error], [isLoading] and [columns] are
    as after the first delivery, for every result. *)
Theorem wiredContacts_idempotent :
  forall (this : component) (result : Wire.result),
    contacts (wiredContacts (wiredContacts this result) result)
    = contacts (wiredContacts this result) /\
    error (wiredContacts (wiredContacts this result) result)
    = error (wiredContacts this result) /\
    isLoading (wiredContacts (wiredContacts this result) result)
    = isLoading (wiredContacts this result) /\
    columns (wiredContacts (wiredContacts this result) result)
    = columns (wiredContacts this result).
Proof.
  intros this result. unfold wiredContacts.
  destruct (truthy (Wire.data result)), (truthy (Wire.error result));
    repeat split.
Qed.

End DeliveriesProps.

(* ================================================================== *)
(** * Properties of successive creations in ContactCreator *)

Module CreationsProps.
Import ContactCreator.

Lemma succeed_snoc (this : component) (events : list successEvent)
  (event : successEvent) :
  succeed this (events ++ [event]) = handleSuccess (succeed this events) event.
Proof. unfold succeed. now rewrite fold_left_app. Qed.

(** X10: over any sequence of successful creations, the identifiers of
    the new records being strings, the component keeps its entity type
    and its field sequence, and dispatches one toast per creation, in
    creation order, each of variant success with the message
    "Record ID: " followed by the identifier of that creation. *)
Theorem succeed_toasts :
  forall (this : component) (recordIds : list string),
    objectApiName (succeed this (map created recordIds))
    = objectApiName this /\
    fields (succeed this (map created recordIds)) = fields this /\
    map message (dispatched (succeed this (map created recordIds))) =
    map message (dispatched this)
    ++ map (fun recordId => ("Record ID: " ++ recordId)%string) recordIds /\
    Forall (fun toast => variant toast = "success")
      (skipn (List.length (dispatched this))
         (dispatched (succeed this (map created recordIds)))).
Proof.
  intros this recordIds.
  induction recordIds as [|recordId front IH] using rev_ind.
  - simpl. rewrite app_nil_r, skipn_all. repeat split. constructor.
  - destruct IH as (Hobject & Hfields & Hmessages & Hvariants).
    rewrite map_app. change (map created [recordId]) with [created recordId].
    rewrite succeed_snoc. unfold handleSuccess, dispatchEvent.
    cbn [objectApiName fields dispatched].
    repeat split; try assumption.
    + rewrite !map_app, Hmessages, <- app_assoc. reflexivity.
    + assert (Hlen : List.length (dispatched this)
                     <= List.length
                          (dispatched (succeed this (map created front)))).
      { apply (f_equal (@List.length string)) in Hmessages.
        rewrite length_app, !length_map in Hmessages. lia. }
      rewrite skipn_app.
      replace (List.length (dispatched this)
               - List.length
                   (dispatched (succeed this (map created front))))
        with 0 by lia.
      apply Forall_app. split; [assumption|]. repeat constructor.
Qed.

(** X11: the success message identifies the record: two creations whose
    identifiers are different strings are announced with different
    messages. *)
Theorem handleSuccess_distinct_messages :
  forall (this : component) (a b : string),
    a <> b ->
    map message
      (dispatched (handleSuccess this {| detail := {| id := VStr a |} |}))
    <> map message
         (dispatched (handleSuccess this {| detail := {| id := VStr b |} |})).
Proof.
  intros this a b Hdiff Hsame. apply Hdiff.
  unfold handleSuccess, dispatchEvent in Hsame. simpl in Hsame.
  rewrite !map_app in Hsame. apply app_inv_head in Hsame.
  simpl in Hsame. congruence.
Qed.

Lemma handleSuccess_distinct_messages_witness :
  map message
    (dispatched
       (handleSuccess create {| detail := {| id := VStr "003A" |} |}))
  <> map message
       (dispatched
          (handleSuccess create {| detail := {| id := VStr "003B" |} |})).
Proof.
  apply (handleSuccess_distinct_messages create "003A" "003B").
  discriminate.
Defined.

End CreationsProps.
